(** * Diffie-Hellman handshake (handshake.py): model and properties

    The development embeds [src/handshake.py].  Integers are Python's
    unbounded [int], modelled by [Z].  A method of a role object is a
    computation over the object's fields that either returns a value or
    raises; fields assigned before a raise stay assigned, so a computation
    returns the final object in both cases.  An [assert] is modelled as
    executed (the interpreter runs without [-O]).

    The interpreter is Python 3.11 or later with its default settings.  The
    narration is modelled as far as it can change the course of a method:
    formatting an integer of more than 4300 decimal digits raises
    [ValueError] ([print] below).  The text written to the standard output
    is not part of the model. *)

From Stdlib Require Import ZArith Znumtheory Bool String List Lia.
Import ListNotations.
Local Open Scope Z_scope.

(** ** Exceptions and results *)

(** The exceptions of the program: a failed [assert], the [ValueError] of
    the built-in [pow] and of the conversion of an integer to a string, and
    the [TypeError] that [pow] raises on [None] (an unset field). *)
Inductive exn : Type :=
| AssertionError
| ValueError
| TypeError.

Inductive result (A : Type) : Type :=
| Ok (a : A)
| Raise (e : exn).
Arguments Ok {A} a.
Arguments Raise {A} e.

(** ** The built-in three-argument [pow] on integers

    [dh_public] and [dh_shared] are both [pow(x, e, p)].  The model follows
    the interpreter's integer power (Python 3.8 and later): a zero modulus
    raises, a negative modulus gives a result with the sign of the modulus,
    modulus one gives zero, a negative exponent goes through the modular
    inverse of the base, and the power itself is left-to-right binary
    exponentiation.  The interpreter reduces the base modulo the modulus
    only when that saves work; the model always does, which gives the same
    residues. *)

Module PyInt.

(** The extended Euclid loop of the modular inverse: the state is
    [(a, n, b, c)] and one turn is
    [q, r = divmod(a, n); a, n = n, r; b, c = c, b - q*c].
    [n] decreases at every turn, so [S (Z.to_nat n)] turns reach [n = 0]
    (lemma [invmod_loop_gcd] below). *)
Fixpoint invmod_loop (fuel : nat) (a n b c : Z) : Z * Z :=
  match fuel with
  | O => (a, b)
  | S k =>
      if n =? 0 then (a, b)
      else invmod_loop k n (a mod n) c (b - (a / n) * c)
  end.

(** [invmod a n] for [n > 0]: the inverse of [a] modulo [n], or [None]
    when the loop ends on a gcd other than one ("base is not invertible for
    the given modulus"). *)
Definition invmod (a n : Z) : option Z :=
  let '(g, b) := invmod_loop (S (Z.to_nat n)) a n 1 0 in
  if g =? 1 then Some b else None.

(** Left-to-right binary exponentiation: the bits of the exponent are
    visited from the most significant one; each bit squares the
    accumulator, a set bit then multiplies by the base. *)
Fixpoint pow_ltr (a : Z) (e : positive) (c : Z) : Z :=
  match e with
  | xH => (1 * 1 mod c) * a mod c
  | xO e' => let z := pow_ltr a e' c in z * z mod c
  | xI e' => let z := pow_ltr a e' c in (z * z mod c) * a mod c
  end.

Definition pow_nonneg (a b c : Z) : Z :=
  match b with
  | Zpos e => pow_ltr a e c
  | _ => 1
  end.

Definition pow (base exp modulus : Z) : result Z :=
  if modulus =? 0 then Raise ValueError
  else
    let negativeOutput := modulus <? 0 in
    let c := Z.abs modulus in
    if c =? 1 then Ok 0
    else
      let ab :=
        if exp <? 0 then
          match invmod base c with
          | Some i => Ok (i, - exp)
          | None => Raise ValueError
          end
        else Ok (base, exp) in
      match ab with
      | Raise e => Raise e
      | Ok (a, b) =>
          let z := pow_nonneg (a mod c) b c in
          Ok (if negativeOutput && negb (z =? 0) then z - c else z)
      end.

(** The conversion of an integer to its decimal string, as an f-string
    does it: it raises [ValueError] when the integer has more than
    [int_max_str_digits] digits (the sign is not counted), that is when its
    absolute value reaches [10 ^ int_max_str_digits]. *)
Definition int_max_str_digits : Z := 4300.

Definition str_ok (n : Z) : bool := Z.abs n <? 10 ^ int_max_str_digits.

(** An unset field formats as [None]. *)
Definition str_ok_opt (x : option Z) : bool :=
  match x with
  | Some n => str_ok n
  | None => true
  end.

End PyInt.

Arguments PyInt.str_ok n : simpl never.

(** ** Methods

    A method over an object of type [S]: it returns a value or raises, and
    in both cases leaves the object as its assignments made it. *)

Definition method (S A : Type) : Type := S -> result A * S.

Definition ret {S A : Type} (x : A) : method S A := fun s => (Ok x, s).

Definition raise {S A : Type} (e : exn) : method S A := fun s => (Raise e, s).

Definition bind {S A B : Type} (m : method S A) (k : A -> method S B)
  : method S B :=
  fun s =>
    match m s with
    | (Ok x, s') => k x s'
    | (Raise e, s') => (Raise e, s')
    end.

Definition get {S : Type} : method S S := fun s => (Ok s, s).

Definition modify {S : Type} (f : S -> S) : method S unit :=
  fun s => (Ok tt, f s).

(** The result of a call that does not touch the object. *)
Definition call {S A : Type} (r : result A) : method S A := fun s => (r, s).

(** The [assert] statement. *)
Definition assert {S : Type} (b : bool) : method S unit :=
  if b then ret tt else raise AssertionError.

(** A [print] of an f-string: [fields] are the integers and integer
    fields the string formats.  It raises when one of them is too long to
    be converted, and otherwise only writes to the standard output. *)
Definition print {S : Type} (fields : list (option Z)) : method S unit :=
  if forallb PyInt.str_ok_opt fields then ret tt else raise ValueError.

Declare Scope method_scope.
Delimit Scope method_scope with method.
Notation "x <- m ;; k" := (bind m (fun x => k))
  (at level 61, m at next level, right associativity) : method_scope.
Notation "m ;; k" := (bind m (fun _ => k))
  (at level 61, right associativity) : method_scope.
Local Open Scope method_scope.

(** ** The program *)

Module DHParams.
Record t : Type := mk { p : Z; g : Z }.

(** The generated [__eq__] of the dataclass compares the field tuples. *)
Definition eqb (x y : t) : bool := (p x =? p y) && (g x =? g y).
End DHParams.

Definition DH_PARAMS : DHParams.t := DHParams.mk 23 5.

Module ClientHello.
Record t : Type := mk { requested_group : string }.

(** [ClientHello()] takes the default of the field. *)
Definition default : t := mk "DH_23_5".
End ClientHello.

Module ServerHello.
Record t : Type := mk { selected_group : string; params : DHParams.t }.
End ServerHello.

Module ClientKeyShare.
Record t : Type := mk { A : Z }.
End ClientKeyShare.

Module ServerKeyShare.
Record t : Type := mk { B : Z }.
End ServerKeyShare.

Module Finished.
Record t : Type := mk { ok : bool }.
End Finished.

Definition dh_public (g a p : Z) : result Z := PyInt.pow g a p.

Definition dh_shared (pub_other a p : Z) : result Z := PyInt.pow pub_other a p.

(** [pow] applied to a field that may still be [None]. *)
Definition with_int {S A : Type} (x : option Z) (k : Z -> method S A)
  : method S A :=
  match x with
  | Some v => k v
  | None => raise TypeError
  end.

Module DHClient.
Record t : Type :=
    mk { params : DHParams.t; a : option Z; A : option Z; shared : option Z }.

(** [__init__] *)
Definition init (params : DHParams.t) : t := mk params None None None.

Definition set_a (v : option Z) (self : t) : t :=
    mk (params self) v (A self) (shared self).
Definition set_A (v : option Z) (self : t) : t :=
    mk (params self) (a self) v (shared self).
Definition set_shared (v : option Z) (self : t) : t :=
    mk (params self) (a self) (A self) v.

Definition start : method t ClientHello.t :=
    print [] ;;
    ret ClientHello.default.

Definition on_server_hello (sh : ServerHello.t) : method t ClientKeyShare.t :=
    self <- get ;;
    assert (DHParams.eqb (ServerHello.params sh) (params self)) ;;
    (* <- ServerHello(selected_group, p, g) *)
    print [Some (DHParams.p (ServerHello.params sh));
           Some (DHParams.g (ServerHello.params sh))] ;;
    modify (set_a (Some 6)) ;;
    self <- get ;;
    pub <- with_int (a self) (fun a_ =>
             call (dh_public (DHParams.g (params self)) a_
                             (DHParams.p (params self)))) ;;
    modify (set_A (Some pub)) ;;
    self <- get ;;
    (* a, A = g^a mod p *)
    print [a self; A self] ;;
    print [] ;;
    ret (ClientKeyShare.mk pub).

Definition on_server_keyshare (sk : ServerKeyShare.t) : method t Finished.t :=
    self <- get ;;
    assert (match a self with Some _ => true | None => false end) ;;
    k <- with_int (a self) (fun a_ =>
           call (dh_shared (ServerKeyShare.B sk) a_
                           (DHParams.p (params self)))) ;;
    modify (set_shared (Some k)) ;;
    (* <- ServerKeyShare(B) *)
    print [Some (ServerKeyShare.B sk)] ;;
    self <- get ;;
    (* shared = B^a mod p *)
    print [shared self] ;;
    print [] ;;
    ret (Finished.mk true).
End DHClient.

Module DHServer.
Record t : Type :=
    mk { params : DHParams.t; b : option Z; B : option Z; shared : option Z }.

(** [__init__] *)
Definition init (params : DHParams.t) : t := mk params None None None.

Definition set_b (v : option Z) (self : t) : t :=
    mk (params self) v (B self) (shared self).
Definition set_B (v : option Z) (self : t) : t :=
    mk (params self) (b self) v (shared self).
Definition set_shared (v : option Z) (self : t) : t :=
    mk (params self) (b self) (B self) v.

Definition on_client_hello (ch : ClientHello.t) : method t ServerHello.t :=
    print [] ;;
    print [] ;;
    self <- get ;;
    ret (ServerHello.mk "DH_23_5" (params self)).

Definition on_client_keyshare (ck : ClientKeyShare.t)
    : method t (ServerKeyShare.t * Finished.t) :=
    (* <- ClientKeyShare(A) *)
    print [Some (ClientKeyShare.A ck)] ;;
    modify (set_b (Some 15)) ;;
    self <- get ;;
    pub <- with_int (b self) (fun b_ =>
             call (dh_public (DHParams.g (params self)) b_
                             (DHParams.p (params self)))) ;;
    modify (set_B (Some pub)) ;;
    self <- get ;;
    (* b, B = g^b mod p *)
    print [b self; B self] ;;
    k <- with_int (b self) (fun b_ =>
           call (dh_shared (ClientKeyShare.A ck) b_
                           (DHParams.p (params self)))) ;;
    modify (set_shared (Some k)) ;;
    self <- get ;;
    (* shared = A^b mod p *)
    print [shared self] ;;
    print [] ;;
    print [] ;;
    ret (ServerKeyShare.mk pub, Finished.mk true).
End DHServer.

(** ** The orchestration of [main] *)

(** The two role objects of a run. *)
Record roles : Type := mkRoles { client : DHClient.t; server : DHServer.t }.

Definition on_client {A : Type} (m : method DHClient.t A) : method roles A :=
  fun w => let (r, c) := m (client w) in (r, mkRoles c (server w)).

Definition on_server {A : Type} (m : method DHServer.t A) : method roles A :=
  fun w => let (r, s) := m (server w) in (r, mkRoles (client w) s).

(** [==] on two [Optional[int]] values. *)
Definition option_Z_eqb (x y : option Z) : bool :=
  match x, y with
  | Some u, Some v => u =? v
  | None, None => true
  | _, _ => false
  end.

(** What the result block of [main] reports. *)
Record outcome : Type :=
  mkOutcome {
    client_shared : option Z;
    server_shared : option Z;
    equal : bool;
    fin_cli : bool;
    fin_srv : bool
  }.

(** The body of [main] once the two roles are constructed. *)
Definition run : method roles outcome :=
  ch <- on_client DHClient.start ;;
  sh <- on_server (DHServer.on_client_hello ch) ;;
  ck <- on_client (DHClient.on_server_hello sh) ;;
  skfin <- on_server (DHServer.on_client_keyshare ck) ;;
  fin_cli <- on_client (DHClient.on_server_keyshare (fst skfin)) ;;
  print [] ;;
  w <- get ;;
  print [DHClient.shared (client w)] ;;
  print [DHServer.shared (server w)] ;;
  print [] ;;
  print [] ;;
  ret (mkOutcome (DHClient.shared (client w)) (DHServer.shared (server w))
         (option_Z_eqb (DHClient.shared (client w)) (DHServer.shared (server w)))
         (Finished.ok fin_cli) (Finished.ok (snd skfin))).

Definition main : result outcome * roles :=
  let params := DH_PARAMS in
  run (mkRoles (DHClient.init params) (DHServer.init params)).

(** One operation of a run: a method call on one of the two roles, with
    the message it is given.  [perform] gives the roles after the call,
    whether it returned or raised. *)
Inductive operation : Type :=
| Start
| OnClientHello (ch : ClientHello.t)
| OnServerHello (sh : ServerHello.t)
| OnClientKeyShare (ck : ClientKeyShare.t)
| OnServerKeyShare (sk : ServerKeyShare.t).

Definition perform (w : roles) (o : operation) : roles :=
  match o with
  | Start => snd (on_client DHClient.start w)
  | OnClientHello ch => snd (on_server (DHServer.on_client_hello ch) w)
  | OnServerHello sh => snd (on_client (DHClient.on_server_hello sh) w)
  | OnClientKeyShare ck => snd (on_server (DHServer.on_client_keyshare ck) w)
  | OnServerKeyShare sk => snd (on_client (DHClient.on_server_keyshare sk) w)
  end.

(** A computation over the two roles that leaves the parameters of both
    as they were, on every path. *)
Definition keeps_params {A : Type} (m : method roles A) : Prop :=
  forall w,
    DHClient.params (client (snd (m w))) = DHClient.params (client w) /\
    DHServer.params (server (snd (m w))) = DHServer.params (server w).

(** The states a client can be in: nothing stored; or the exponent 6
    stored, which takes parameters that can be printed, and then, over a
    zero modulus, nothing else, and otherwise the public value of that
    exponent and possibly a secret, which is a sixth power of some key
    share. *)
Definition client_invariant (params : DHParams.t) (c : DHClient.t) : Prop :=
  let p := DHParams.p params in
  let g := DHParams.g params in
  DHClient.params c = params /\
  ((DHClient.a c = None /\ DHClient.A c = None /\ DHClient.shared c = None) \/
   (DHClient.a c = Some 6 /\
    PyInt.str_ok p = true /\ PyInt.str_ok g = true /\
    ((p = 0 /\ DHClient.A c = None /\ DHClient.shared c = None) \/
     (p <> 0 /\ DHClient.A c = Some (g ^ 6 mod p) /\
      (DHClient.shared c = None \/
       exists pub, DHClient.shared c = Some (pub ^ 6 mod p)))))).

(** The states a server can be in: nothing stored; or the exponent 15
    stored, and then, over a zero modulus, nothing else, and otherwise the
    public value of that exponent, with no secret when the public value is
    too long to be printed, and with a secret otherwise, which is a
    fifteenth power of some key share. *)
Definition server_invariant (params : DHParams.t) (s : DHServer.t) : Prop :=
  let p := DHParams.p params in
  let g := DHParams.g params in
  DHServer.params s = params /\
  ((DHServer.b s = None /\ DHServer.B s = None /\ DHServer.shared s = None) \/
   (DHServer.b s = Some 15 /\
    ((p = 0 /\ DHServer.B s = None /\ DHServer.shared s = None) \/
     (p <> 0 /\ DHServer.B s = Some (g ^ 15 mod p) /\
      ((PyInt.str_ok (g ^ 15 mod p) = false /\ DHServer.shared s = None) \/
       (PyInt.str_ok (g ^ 15 mod p) = true /\
        exists pub, DHServer.shared s = Some (pub ^ 15 mod p))))))).

(** ** Concrete runs *)

Example dh_public_client : dh_public 5 6 23 = Ok 8.
Proof. reflexivity. Qed.

Example dh_public_server : dh_public 5 15 23 = Ok 19.
Proof. reflexivity. Qed.

Example pow_inverse : PyInt.pow 3 (-1) 7 = Ok 5.
Proof. reflexivity. Qed.

Example pow_negative_modulus : PyInt.pow 2 3 (-5) = Ok (-2).
Proof. reflexivity. Qed.

Example pow_not_invertible : PyInt.pow 2 (-1) 4 = Raise ValueError.
Proof. reflexivity. Qed.

(** ** The integer power *)

Module PyIntFacts.
Import PyInt.

Lemma pow_ltr_spec (a : Z) (e : positive) (c : Z) :
  pow_ltr a e c = a ^ Zpos e mod c.
Proof.
  induction e as [e IH | e IH | ]; cbn [pow_ltr].
  - rewrite IH, Pos2Z.inj_xI, Z.pow_add_r, Z.pow_1_r, Z.pow_twice_r by lia.
    rewrite <- Zmult_mod, Zmult_mod_idemp_l.
    reflexivity.
  - rewrite IH, Pos2Z.inj_xO, Z.pow_twice_r.
    rewrite <- Zmult_mod. reflexivity.
  - rewrite Z.pow_1_r, Zmult_mod_idemp_l. f_equal. lia.
Qed.

Lemma pow_nonneg_spec (a b c : Z) :
  0 <= b -> 1 < c -> pow_nonneg a b c = a ^ b mod c.
Proof.
  intros Hb Hc. destruct b as [ | e | e ]; cbn [pow_nonneg].
  - rewrite Z.pow_0_r, Z.mod_1_l; lia.
  - apply pow_ltr_spec.
  - lia.
Qed.

(** The sign correction at the end of [pow] turns the residue modulo
    [Z.abs m] into the residue modulo [m]. *)
Lemma sign_adjust (x m : Z) :
  m <> 0 ->
  (if (m <? 0) && negb (x mod Z.abs m =? 0)
   then x mod Z.abs m - Z.abs m else x mod Z.abs m) = x mod m.
Proof.
  intros Hm.
  destruct (Z.ltb_spec m 0) as [Hneg | Hpos]; cbn [andb].
  - replace (Z.abs m) with (- m) by lia.
    replace (x mod m) with (x mod - - m) by (now rewrite Z.opp_involutive).
    destruct (Z.eqb_spec (x mod - m) 0) as [Hz | Hz]; cbn [negb].
    + rewrite (Z_mod_zero_opp_r x (- m)) by assumption. assumption.
    + rewrite (Z_mod_nz_opp_r x (- m)) by assumption. reflexivity.
  - now replace (Z.abs m) with m by lia.
Qed.

(** With a non-negative exponent and a non-zero modulus [pow] returns the
    floored residue of the power. *)
Lemma pow_spec (base e m : Z) :
  m <> 0 -> 0 <= e -> pow base e m = Ok (base ^ e mod m).
Proof.
  intros Hm He. unfold pow.
  destruct (Z.eqb_spec m 0) as [ | _ ]; [ contradiction | ].
  destruct (Z.eqb_spec (Z.abs m) 1) as [H1 | H1].
  - f_equal. symmetry.
    assert (Hc : m = 1 \/ m = -1) by lia.
    destruct Hc as [-> | ->].
    + apply Z.mod_1_r.
    + apply (Z_mod_zero_opp_r (base ^ e) 1), Z.mod_1_r.
  - destruct (Z.ltb_spec e 0) as [ | _ ]; [ lia | ].
    rewrite pow_nonneg_spec, Z.mod_pow_l by lia.
    f_equal. apply sign_adjust. assumption.
Qed.

(** The Euclid loop: started with enough turns from a state whose
    coefficients [b] and [c] express [a] and [n] as multiples of [a0]
    modulo [n0], it ends on the gcd and on a coefficient of [a0] for it. *)
Lemma invmod_loop_gcd (a0 n0 : Z) (fuel : nat) :
  forall a n b c : Z,
    0 <= n -> (n = 0 -> 0 <= a) ->
    (Z.to_nat n < fuel)%nat ->
    (exists k, b * a0 = a + k * n0) ->
    (exists k, c * a0 = n + k * n0) ->
    fst (invmod_loop fuel a n b c) = Z.gcd a n /\
    exists k, snd (invmod_loop fuel a n b c) * a0 = Z.gcd a n + k * n0.
Proof.
  induction fuel as [ | fuel IH ]; intros a n b c Hn Ha Hfuel Hb Hc.
  - lia.
  - cbn [invmod_loop].
    destruct (Z.eqb_spec n 0) as [-> | Hn0]; cbn [fst snd].
    + rewrite Z.gcd_0_r, Z.abs_eq by auto. split; [ reflexivity | exact Hb ].
    + assert (Hr : 0 <= a mod n < n) by (apply Z.mod_pos_bound; lia).
      rewrite (Z.gcd_comm a n), <- (Z.gcd_mod_r n a).
      apply IH; try lia; [ exact Hc | ].
      destruct Hb as [kb Hb], Hc as [kc Hc].
      exists (kb - a / n * kc).
      rewrite Z.mod_eq by assumption.
      replace ((b - a / n * c) * a0) with (b * a0 - a / n * (c * a0)) by ring.
      rewrite Hb, Hc. ring.
Qed.

(** [invmod] answers exactly on the bases coprime to the modulus, and its
    answer is an inverse. *)
Lemma invmod_spec (a n : Z) :
  0 < n ->
  match invmod a n with
  | Some i => Z.gcd a n = 1 /\ (i * a) mod n = 1 mod n
  | None => Z.gcd a n <> 1
  end.
Proof.
  intros Hn. unfold invmod.
  destruct (invmod_loop_gcd a n (S (Z.to_nat n)) a n 1 0) as [Hg [k Hk]];
    try lia.
  - exists 0. ring.
  - exists (-1). ring.
  - destruct (invmod_loop _ a n 1 0) as [gg i]; cbn [fst snd] in *.
    destruct (Z.eqb_spec gg 1) as [-> | Hne].
    + split; [ congruence | ].
      rewrite Hk, <- Hg. apply Z.mod_add. lia.
    + congruence.
Qed.

(** With a negative exponent [pow] raises exactly when the base has no
    inverse; otherwise its result is an inverse of the positive power. *)
Lemma pow_negative_exponent (base e m : Z) :
  m <> 0 -> Z.abs m <> 1 -> e < 0 ->
  (Z.gcd base m <> 1 /\ pow base e m = Raise ValueError) \/
  (Z.gcd base m = 1 /\
   exists r, pow base e m = Ok r /\ (r * base ^ (- e)) mod m = 1 mod m).
Proof.
  intros Hm H1 He. unfold pow.
  destruct (Z.eqb_spec m 0) as [ | _ ]; [ contradiction | ].
  destruct (Z.eqb_spec (Z.abs m) 1) as [ | _ ]; [ contradiction | ].
  destruct (Z.ltb_spec e 0) as [ _ | ]; [ | lia ].
  pose proof (invmod_spec base (Z.abs m)) as Hinv.
  rewrite Z.gcd_abs_r in Hinv.
  destruct (invmod base (Z.abs m)) as [i | ].
  - right. destruct Hinv as [Hg Hi]; [ lia | ].
    split; [ assumption | ].
    eexists. split; [ reflexivity | ].
    rewrite pow_nonneg_spec, Z.mod_pow_l by lia.
    cbv zeta. rewrite (sign_adjust (i ^ (- e)) m Hm).
    rewrite Zmult_mod_idemp_l, <- Z.pow_mul_l.
    apply Z.eq_mod_abs.
    rewrite <- Z.mod_pow_l, Hi, Z.mod_pow_l, Z.pow_1_l by lia.
    reflexivity.
  - left. split; [ apply Hinv; lia | reflexivity ].
Qed.

(** ** The conversion to a string *)

Lemma str_ok_spec (n : Z) :
  str_ok n = true <-> Z.abs n < 10 ^ int_max_str_digits.
Proof. unfold str_ok. apply Z.ltb_lt. Qed.

Lemma str_ok_false (n : Z) :
  str_ok n = false <-> 10 ^ int_max_str_digits <= Z.abs n.
Proof. unfold str_ok. apply Z.ltb_ge. Qed.

(** A residue of a printable modulus is printable. *)
Lemma str_ok_mod (x p : Z) :
  str_ok p = true -> p <> 0 -> str_ok (x mod p) = true.
Proof.
  rewrite !str_ok_spec. intros Hp Hnz.
  apply Z.lt_trans with (Z.abs p); [ | exact Hp ].
  apply Z.mod_bound_abs. exact Hnz.
Qed.

(** Integers of at most [k] digits, [k] within the limit, are printable. *)
Lemma str_ok_below (n k : Z) :
  Z.abs n < 10 ^ k -> k <= int_max_str_digits -> str_ok n = true.
Proof.
  intros Hn Hk. apply str_ok_spec.
  apply Z.lt_le_trans with (10 ^ k); [ exact Hn | ].
  apply Z.pow_le_mono_r; [ lia | exact Hk ].
Qed.

(** The longest integers that can be printed, and the shortest that
    cannot. *)
Lemma str_longest : str_ok (10 ^ 4300 - 1) = true /\ str_ok (1 - 10 ^ 4300) = true.
Proof.
  assert (Hpos : 0 < 10 ^ 4300) by (apply Z.pow_pos_nonneg; reflexivity || discriminate).
  split; apply str_ok_spec; change int_max_str_digits with 4300;
    generalize dependent (10 ^ 4300); intros x Hx; lia.
Qed.

Lemma str_too_long : str_ok (10 ^ 4300) = false /\ str_ok (- 10 ^ 4300) = false.
Proof.
  assert (Hpos : 0 < 10 ^ 4300) by (apply Z.pow_pos_nonneg; reflexivity || discriminate).
  split; apply str_ok_false; change int_max_str_digits with 4300;
    generalize dependent (10 ^ 4300); intros x Hx; lia.
Qed.

Lemma str_ok_0 : str_ok 0 = true.
Proof. apply (str_ok_below 0 1); [ reflexivity | discriminate ]. Qed.

Lemma str_ok_6 : str_ok 6 = true.
Proof. apply (str_ok_below 6 1); [ reflexivity | discriminate ]. Qed.

Lemma str_ok_15 : str_ok 15 = true.
Proof. apply (str_ok_below 15 2); [ reflexivity | discriminate ]. Qed.

(** The inverse only looks at the residue of the base: the first turn of
    the loop replaces the base by it. *)
Lemma invmod_congr (a1 a2 n : Z) :
  n <> 0 -> a1 mod n = a2 mod n -> invmod a1 n = invmod a2 n.
Proof.
  intros Hn H.
  assert (Hturn : forall a k,
             invmod_loop (S k) a n 1 0 = invmod_loop k n (a mod n) 0 1).
  { intros a k.
    change (invmod_loop (S k) a n 1 0)
      with (if n =? 0 then (a, 1)
            else invmod_loop k n (a mod n) 0 (1 - a / n * 0)).
    destruct (Z.eqb_spec n 0) as [ | _ ]; [ contradiction | ].
    f_equal. lia. }
  unfold invmod. rewrite !Hturn, H. reflexivity.
Qed.

(** [pow] only looks at the residue of the base, for every exponent. *)
Lemma pow_base_congr (base1 base2 e m : Z) :
  base1 mod m = base2 mod m -> pow base1 e m = pow base2 e m.
Proof.
  intros H. unfold pow.
  destruct (Z.eqb_spec m 0) as [ | Hm ]; [ reflexivity | ].
  destruct (Z.eqb_spec (Z.abs m) 1) as [ | _ ]; [ reflexivity | ].
  apply Z.eq_mod_abs in H.
  destruct (e <? 0).
  - rewrite (invmod_congr base1 base2) by (assumption || lia). reflexivity.
  - cbv zeta. rewrite H. reflexivity.
Qed.


End PyIntFacts.

(** Shows that a numeral of at most nine digits is printable. *)
Ltac str_small :=
  apply (PyIntFacts.str_ok_below _ 9); [ reflexivity | discriminate ].

(** The residue of minus one. *)
Lemma mod_minus_one (p : Z) : 1 < p -> (-1) mod p = p - 1.
Proof.
  intros Hp. symmetry. apply (Z.mod_unique_pos (-1) p (-1)); lia.
Qed.

(** Powers of a value congruent to minus one. *)
Lemma pow_of_minus_one (x e p : Z) :
  1 < p -> x mod p = p - 1 -> x ^ e mod p = (-1) ^ e mod p.
Proof.
  intros Hp Hx.
  rewrite <- (Z.mod_pow_l x), Hx, <- (mod_minus_one p Hp), Z.mod_pow_l.
  reflexivity.
Qed.

(** ** The methods of the two roles *)

Lemma DHParams_eqb_eq (x y : DHParams.t) : DHParams.eqb x y = true <-> x = y.
Proof.
  destruct x as [px gx], y as [py gy]. unfold DHParams.eqb. cbn.
  rewrite andb_true_iff, !Z.eqb_eq.
  split; [ intros [-> ->]; reflexivity | intros [= -> ->]; auto ].
Qed.

Lemma DHParams_eqb_neq (x y : DHParams.t) : DHParams.eqb x y = false <-> x <> y.
Proof.
  rewrite <- DHParams_eqb_eq. destruct (DHParams.eqb x y); split; congruence.
Qed.

(** Unfolds the plumbing of a method body, leaving the calls of
    [dh_public] and [dh_shared] and the tests of [print] in place. *)
Ltac method_steps :=
  cbv beta iota zeta delta
    [bind get modify ret raise call assert with_int print fst snd
     DHClient.start DHClient.on_server_hello DHClient.on_server_keyshare
     DHServer.on_client_hello DHServer.on_client_keyshare
     DHClient.set_a DHClient.set_A DHClient.set_shared
     DHServer.set_b DHServer.set_B DHServer.set_shared
     DHClient.init DHServer.init
     DHClient.params DHClient.a DHClient.A DHClient.shared
     DHServer.params DHServer.b DHServer.B DHServer.shared];
  cbn [forallb PyInt.str_ok_opt].

Lemma dh_public_zero (g a : Z) : dh_public g a 0 = Raise ValueError.
Proof. reflexivity. Qed.

Lemma dh_shared_zero (pub a : Z) : dh_shared pub a 0 = Raise ValueError.
Proof. reflexivity. Qed.

(** Runs a method body as far as the facts at hand decide its tests. *)
Ltac method_run :=
  repeat (method_steps;
          rewrite ?PyIntFacts.str_ok_0, ?PyIntFacts.str_ok_6,
            ?PyIntFacts.str_ok_15;
          repeat match goal with
            | H : PyInt.str_ok ?n = _ |- context [PyInt.str_ok ?n] =>
                rewrite H
            | H : DHParams.eqb ?x ?y = _ |- context [DHParams.eqb ?x ?y] =>
                rewrite H
            | H : dh_public ?x ?y ?z = _ |- context [dh_public ?x ?y ?z] =>
                rewrite H
            | H : dh_shared ?x ?y ?z = _ |- context [dh_shared ?x ?y ?z] =>
                rewrite H
            end;
          rewrite ?dh_public_zero, ?dh_shared_zero;
          cbn [andb]).

Lemma dh_public_spec (g a p : Z) :
  p <> 0 -> 0 <= a -> dh_public g a p = Ok (g ^ a mod p).
Proof. apply PyIntFacts.pow_spec. Qed.

Lemma dh_shared_spec (pub a p : Z) :
  p <> 0 -> 0 <= a -> dh_shared pub a p = Ok (pub ^ a mod p).
Proof. apply PyIntFacts.pow_spec. Qed.

Section ClientSteps.
Variable c : DHClient.t.

Let p := DHParams.p (DHClient.params c).
Let g := DHParams.g (DHClient.params c).

Lemma on_server_hello_mismatch (sh : ServerHello.t) :
  ServerHello.params sh <> DHClient.params c ->
  DHClient.on_server_hello sh c = (Raise AssertionError, c).
Proof.
  intros Hne. apply DHParams_eqb_neq in Hne.
  destruct c as [cp ca cA cs]. cbn in Hne. method_run. reflexivity.
Qed.

(** The first [print] of [on_server_hello] formats the modulus and the
    generator; when one of them is too long the method raises before it
    assigns anything. *)
Lemma on_server_hello_unprintable (sh : ServerHello.t) :
  ServerHello.params sh = DHClient.params c ->
  PyInt.str_ok p && PyInt.str_ok g = false ->
  DHClient.on_server_hello sh c = (Raise ValueError, c).
Proof.
  subst p g. intros Heq Hok. destruct sh as [name sp]. cbn in Heq. subst sp.
  pose proof (proj2 (DHParams_eqb_eq _ _) (eq_refl (DHClient.params c))) as E.
  destruct c as [cp ca cA cs]. cbn in *. method_run.
  rewrite andb_true_r, Hok. reflexivity.
Qed.

Lemma on_server_hello_match (sh : ServerHello.t) :
  ServerHello.params sh = DHClient.params c ->
  PyInt.str_ok p = true -> PyInt.str_ok g = true ->
  p <> 0 ->
  DHClient.on_server_hello sh c =
    (Ok (ClientKeyShare.mk (g ^ 6 mod p)),
     DHClient.mk (DHClient.params c) (Some 6) (Some (g ^ 6 mod p))
       (DHClient.shared c)).
Proof.
  subst p g. intros Heq Hokp Hokg Hp. destruct sh as [name sp]. cbn in Heq.
  subst sp.
  pose proof (proj2 (DHParams_eqb_eq _ _) (eq_refl (DHClient.params c))) as E.
  pose proof (dh_public_spec (DHParams.g (DHClient.params c)) 6 _ Hp
                ltac:(discriminate)) as Hpub.
  pose proof (PyIntFacts.str_ok_mod
                (DHParams.g (DHClient.params c) ^ 6) _ Hokp Hp) as HokA.
  destruct c as [cp ca cA cs]. cbn in *. method_run. reflexivity.
Qed.

Lemma on_server_hello_zero_modulus (sh : ServerHello.t) :
  ServerHello.params sh = DHClient.params c ->
  PyInt.str_ok g = true ->
  p = 0 ->
  DHClient.on_server_hello sh c = (Raise ValueError, DHClient.set_a (Some 6) c).
Proof.
  subst p g. intros Heq Hokg Hp. destruct sh as [name sp]. cbn in Heq.
  subst sp.
  pose proof (proj2 (DHParams_eqb_eq _ _) (eq_refl (DHClient.params c))) as E.
  destruct c as [[p0 g0] ca cA cs]. cbn in *. subst p0. method_run.
  reflexivity.
Qed.

Lemma on_server_keyshare_unset (sk : ServerKeyShare.t) :
  DHClient.a c = None ->
  DHClient.on_server_keyshare sk c = (Raise AssertionError, c).
Proof.
  destruct c as [cp ca cA cs]. cbn. intros ->. reflexivity.
Qed.

(** When [pow] raises in [on_server_keyshare] nothing is stored. *)
Lemma on_server_keyshare_raises (sk : ServerKeyShare.t) (a_ : Z) (e : exn) :
  DHClient.a c = Some a_ ->
  dh_shared (ServerKeyShare.B sk) a_ p = Raise e ->
  DHClient.on_server_keyshare sk c = (Raise e, c).
Proof.
  subst p. destruct c as [cp ca cA cs]. cbn. intros -> Hpow.
  method_run. reflexivity.
Qed.

(** When [pow] returns, [on_server_keyshare] stores the secret, and then
    formats the key share and the secret. *)
Lemma on_server_keyshare_stores (sk : ServerKeyShare.t) (a_ k : Z) :
  DHClient.a c = Some a_ ->
  dh_shared (ServerKeyShare.B sk) a_ p = Ok k ->
  DHClient.on_server_keyshare sk c =
    (if PyInt.str_ok (ServerKeyShare.B sk) && PyInt.str_ok k
     then Ok (Finished.mk true) else Raise ValueError,
     DHClient.set_shared (Some k) c).
Proof.
  subst p. destruct c as [cp ca cA cs]. cbn. intros -> Hpow.
  method_run. rewrite andb_true_r.
  destruct (PyInt.str_ok (ServerKeyShare.B sk)); cbn [andb]; method_run;
    [ | reflexivity ].
  rewrite andb_true_r.
  destruct (PyInt.str_ok k); method_run; reflexivity.
Qed.

Lemma on_server_keyshare_set (sk : ServerKeyShare.t) (a_ : Z) :
  DHClient.a c = Some a_ ->
  0 <= a_ -> p <> 0 ->
  PyInt.str_ok p = true ->
  PyInt.str_ok (ServerKeyShare.B sk) = true ->
  DHClient.on_server_keyshare sk c =
    (Ok (Finished.mk true),
     DHClient.set_shared (Some (ServerKeyShare.B sk ^ a_ mod p)) c).
Proof.
  intros Ha Ha0 Hp Hokp HokB.
  rewrite (on_server_keyshare_stores sk a_ (ServerKeyShare.B sk ^ a_ mod p))
    by (assumption || (apply dh_shared_spec; assumption)).
  rewrite HokB, PyIntFacts.str_ok_mod by assumption. reflexivity.
Qed.

End ClientSteps.

Section ServerSteps.
Variable s : DHServer.t.

Let p := DHParams.p (DHServer.params s).
Let g := DHParams.g (DHServer.params s).

Lemma on_client_hello_run (ch : ClientHello.t) :
  DHServer.on_client_hello ch s =
    (Ok (ServerHello.mk "DH_23_5" (DHServer.params s)), s).
Proof. reflexivity. Qed.

(** The first [print] of [on_client_keyshare] formats the key share; when
    it is too long the method raises before it assigns anything. *)
Lemma on_client_keyshare_unprintable (ck : ClientKeyShare.t) :
  PyInt.str_ok (ClientKeyShare.A ck) = false ->
  DHServer.on_client_keyshare ck s = (Raise ValueError, s).
Proof.
  intros Hok. destruct s as [sp sb sB ss]. method_run. reflexivity.
Qed.

Lemma on_client_keyshare_zero_modulus (ck : ClientKeyShare.t) :
  PyInt.str_ok (ClientKeyShare.A ck) = true ->
  p = 0 ->
  DHServer.on_client_keyshare ck s = (Raise ValueError, DHServer.set_b (Some 15) s).
Proof.
  subst p. intros Hok Hp. destruct s as [[p0 g0] sb sB ss]. cbn in *.
  subst p0. method_run. reflexivity.
Qed.

(** Over a non-zero modulus [on_client_keyshare] stores the public value,
    formats it, stores the secret and formats it; it can still raise in
    either [print]. *)
Lemma on_client_keyshare_stores (ck : ClientKeyShare.t) :
  PyInt.str_ok (ClientKeyShare.A ck) = true ->
  p <> 0 ->
  let pub := g ^ 15 mod p in
  let k := ClientKeyShare.A ck ^ 15 mod p in
  DHServer.on_client_keyshare ck s =
    if PyInt.str_ok pub
    then (if PyInt.str_ok k
          then Ok (ServerKeyShare.mk pub, Finished.mk true)
          else Raise ValueError,
          DHServer.mk (DHServer.params s) (Some 15) (Some pub) (Some k))
    else (Raise ValueError,
          DHServer.mk (DHServer.params s) (Some 15) (Some pub)
            (DHServer.shared s)).
Proof.
  subst p g. intros Hok Hp pub k.
  pose proof (dh_public_spec (DHParams.g (DHServer.params s)) 15 _ Hp
                ltac:(discriminate)) as Hpub.
  pose proof (dh_shared_spec (ClientKeyShare.A ck) 15 _ Hp
                ltac:(discriminate)) as Hk.
  fold pub in Hpub. fold k in Hk. clearbody pub k.
  destruct s as [sp sb sB ss]. cbn in *. method_run. rewrite andb_true_r.
  destruct (PyInt.str_ok pub); method_run; [ | reflexivity ].
  rewrite andb_true_r.
  destruct (PyInt.str_ok k); method_run; reflexivity.
Qed.

Lemma on_client_keyshare_run (ck : ClientKeyShare.t) :
  PyInt.str_ok (ClientKeyShare.A ck) = true ->
  PyInt.str_ok p = true ->
  p <> 0 ->
  DHServer.on_client_keyshare ck s =
    (Ok (ServerKeyShare.mk (g ^ 15 mod p), Finished.mk true),
     DHServer.mk (DHServer.params s) (Some 15) (Some (g ^ 15 mod p))
       (Some (ClientKeyShare.A ck ^ 15 mod p))).
Proof.
  intros HokA Hokp Hp.
  rewrite on_client_keyshare_stores by assumption. cbv zeta.
  rewrite !PyIntFacts.str_ok_mod by assumption. reflexivity.
Qed.

End ServerSteps.

(** ** The exchange *)

(** Re-exponentiating the peer's public value gives the same residue on
    both sides. *)
Lemma pow_exchange (g a b p : Z) :
  0 <= a -> 0 <= b ->
  (g ^ b mod p) ^ a mod p = (g ^ a mod p) ^ b mod p.
Proof.
  intros Ha Hb.
  rewrite !Z.mod_pow_l, <- !Z.pow_mul_r by assumption.
  now rewrite (Z.mul_comm a b).
Qed.

Lemma option_Z_eqb_refl (x : option Z) : option_Z_eqb x x = true.
Proof. destruct x; cbn; [ apply Z.eqb_refl | reflexivity ]. Qed.

(** The unfolding of [run] down to the first call that can raise. *)
Ltac run_steps :=
  cbv beta iota delta
    [run bind on_client on_server client server fst snd get ret print
     DHClient.start DHServer.on_client_hello];
  cbn [forallb PyInt.str_ok_opt].

Lemma run_mismatch (w : roles) :
  DHServer.params (server w) <> DHClient.params (client w) ->
  run w = (Raise AssertionError, w).
Proof.
  intros Hne. destruct w as [c s]. cbn [client server] in Hne.
  run_steps.
  rewrite on_server_hello_mismatch by exact Hne. reflexivity.
Qed.

Lemma run_unprintable (w : roles) :
  DHServer.params (server w) = DHClient.params (client w) ->
  PyInt.str_ok (DHParams.p (DHClient.params (client w)))
    && PyInt.str_ok (DHParams.g (DHClient.params (client w))) = false ->
  run w = (Raise ValueError, w).
Proof.
  intros Hs Hok. destruct w as [c s]. cbn [client server] in Hs, Hok.
  run_steps.
  rewrite on_server_hello_unprintable by assumption. reflexivity.
Qed.

Lemma run_zero (w : roles) :
  DHServer.params (server w) = DHClient.params (client w) ->
  PyInt.str_ok (DHParams.g (DHClient.params (client w))) = true ->
  DHParams.p (DHClient.params (client w)) = 0 ->
  run w =
    (Raise ValueError, mkRoles (DHClient.set_a (Some 6) (client w)) (server w)).
Proof.
  intros Hs Hok Hp. destruct w as [c s]. cbn [client server] in Hs, Hok, Hp.
  run_steps.
  rewrite on_server_hello_zero_modulus by assumption. reflexivity.
Qed.

(** A run of two roles that hold the same parameters, printable and with
    a non-zero modulus, whatever their other fields held before.  The
    values of the run are named, with their defining equations. *)
Lemma run_spec (w : roles) (params : DHParams.t) :
  DHClient.params (client w) = params ->
  DHServer.params (server w) = params ->
  let p := DHParams.p params in
  let g := DHParams.g params in
  PyInt.str_ok p = true -> PyInt.str_ok g = true ->
  p <> 0 ->
  exists pubA pubB k,
    pubA = g ^ 6 mod p /\ pubB = g ^ 15 mod p /\
    k = pubB ^ 6 mod p /\ k = pubA ^ 15 mod p /\
    run w =
      (Ok (mkOutcome (Some k) (Some k) true true true),
       mkRoles (DHClient.mk params (Some 6) (Some pubA) (Some k))
               (DHServer.mk params (Some 15) (Some pubB) (Some k))).
Proof.
  intros Hc Hs p g Hokp Hokg Hp. subst p g.
  destruct w as [c s]. cbn [client server] in Hc, Hs. subst params.
  set (p := DHParams.p (DHClient.params c)) in *.
  set (g := DHParams.g (DHClient.params c)) in *.
  exists (g ^ 6 mod p), (g ^ 15 mod p), ((g ^ 15 mod p) ^ 6 mod p).
  split; [ reflexivity | ]. split; [ reflexivity | ].
  split; [ reflexivity | ].
  assert (Hk : (g ^ 15 mod p) ^ 6 mod p = (g ^ 6 mod p) ^ 15 mod p)
    by (apply pow_exchange; lia).
  split; [ exact Hk | ].
  assert (HokA : PyInt.str_ok (g ^ 6 mod p) = true)
    by (apply PyIntFacts.str_ok_mod; assumption).
  assert (HokB : PyInt.str_ok (g ^ 15 mod p) = true)
    by (apply PyIntFacts.str_ok_mod; assumption).
  assert (Hokk : PyInt.str_ok ((g ^ 15 mod p) ^ 6 mod p) = true)
    by (apply PyIntFacts.str_ok_mod; assumption).
  run_steps.
  rewrite on_server_hello_match; cbn [ServerHello.params]; try congruence;
    try assumption.
  rewrite on_client_keyshare_run;
    cbn [ClientKeyShare.A]; rewrite ?Hs; try assumption.
  cbv beta iota delta [fst snd].
  rewrite (on_server_keyshare_set _ _ 6);
    cbn [DHClient.a DHClient.params ServerKeyShare.B];
    try assumption; try lia; try reflexivity.
  unfold DHClient.set_shared.
  cbn [DHClient.shared DHServer.shared DHClient.params DHClient.a DHClient.A
       Finished.ok ClientKeyShare.A ServerKeyShare.B].
  fold p g. rewrite <- Hk.
  cbn [forallb PyInt.str_ok_opt]. rewrite Hokk. cbn [andb].
  rewrite option_Z_eqb_refl. reflexivity.
Qed.

(** The four ways a run can go, by the parameters of the two roles. *)
Lemma run_cases (w : roles) :
  let params := DHClient.params (client w) in
  let p := DHParams.p params in
  let g := DHParams.g params in
  (DHServer.params (server w) <> params /\
   run w = (Raise AssertionError, w)) \/
  (DHServer.params (server w) = params /\
   PyInt.str_ok p && PyInt.str_ok g = false /\
   run w = (Raise ValueError, w)) \/
  (DHServer.params (server w) = params /\
   PyInt.str_ok p = true /\ PyInt.str_ok g = true /\ p = 0 /\
   run w =
     (Raise ValueError,
      mkRoles (DHClient.set_a (Some 6) (client w)) (server w))) \/
  (DHServer.params (server w) = params /\
   PyInt.str_ok p = true /\ PyInt.str_ok g = true /\ p <> 0 /\
   exists pubA pubB k,
     pubA = g ^ 6 mod p /\ pubB = g ^ 15 mod p /\
     k = pubB ^ 6 mod p /\ k = pubA ^ 15 mod p /\
     run w =
       (Ok (mkOutcome (Some k) (Some k) true true true),
        mkRoles (DHClient.mk params (Some 6) (Some pubA) (Some k))
                (DHServer.mk params (Some 15) (Some pubB) (Some k)))).
Proof.
  intros params p g.
  destruct (DHParams.eqb (DHServer.params (server w)) params) eqn:E.
  - apply DHParams_eqb_eq in E. right.
    destruct (PyInt.str_ok p && PyInt.str_ok g) eqn:Hok.
    + apply andb_true_iff in Hok as [Hokp Hokg]. right.
      destruct (Z.eq_dec p 0) as [Hz | Hnz].
      * left. repeat (split; [ assumption | ]).
        apply run_zero; assumption.
      * right. repeat (split; [ assumption | ]).
        apply (run_spec w params); auto.
    + left. split; [ assumption | ]. split; [ reflexivity | ].
      apply run_unprintable; assumption.
  - apply DHParams_eqb_neq in E. left. auto using run_mismatch.
Qed.

(** Case analysis of a run, with the values of a complete run abstract. *)
Ltac run_cases_on w :=
  let Hr := fresh "Hr" in
  destruct (run_cases w)
    as [ [?Hne Hr]
       | [ (?He & ?Hnok & Hr)
         | [ (?He & ?Hokp & ?Hokg & ?Hz & Hr)
           | (?He & ?Hokp & ?Hokg & ?Hnz
              & ?pubA & ?pubB & ?k & ?HA & ?HB & ?Hk & ?Hk' & Hr) ] ] ];
  cbv zeta in Hr; rewrite Hr in *; clear Hr.

Lemma main_run :
  main =
    (Ok (mkOutcome (Some 2) (Some 2) true true true),
     mkRoles (DHClient.mk DH_PARAMS (Some 6) (Some 8) (Some 2))
             (DHServer.mk DH_PARAMS (Some 15) (Some 19) (Some 2))).
Proof.
  unfold main.
  pose proof (run_spec (mkRoles (DHClient.init DH_PARAMS)
                                (DHServer.init DH_PARAMS)) DH_PARAMS
                eq_refl eq_refl) as H.
  cbv zeta in H.
  destruct H as (pubA & pubB & k & -> & -> & -> & _ & Hrun);
    [ str_small | str_small | discriminate | ].
  exact Hrun.
Qed.

Example main_outcome :
  fst main = Ok (mkOutcome (Some 2) (Some 2) true true true).
Proof. rewrite main_run. reflexivity. Qed.

(** The run of [main], with the roles it ends on named through [main]. *)
Lemma main_run_snd :
  run (mkRoles (DHClient.init DH_PARAMS) (DHServer.init DH_PARAMS))
    = (Ok (mkOutcome (Some 2) (Some 2) true true true), snd main).
Proof.
  change (run (mkRoles (DHClient.init DH_PARAMS) (DHServer.init DH_PARAMS)))
    with main.
  rewrite main_run. reflexivity.
Qed.

(** ** Properties of the handshake *)






(** C2. With modulus 23, generator 5 and the exponents 6 and 15 the run
    gives the public values [A = 8] and [B = 19], stores the shared secret 2
    on both sides, finds them equal and has both [Finished] flags true;
    the four powers of the reference run are 8, 19, 2 and 2. *)
Theorem reference_run :
  fst main = Ok (mkOutcome (Some 2) (Some 2) true true true) /\
  DHClient.a (client (snd main)) = Some 6 /\
  DHServer.b (server (snd main)) = Some 15 /\
  DHClient.A (client (snd main)) = Some 8 /\
  DHServer.B (server (snd main)) = Some 19 /\
  DHClient.shared (client (snd main)) = Some 2 /\
  DHServer.shared (server (snd main)) = Some 2 /\
  dh_public 5 6 23 = Ok 8 /\
  dh_public 5 15 23 = Ok 19 /\
  dh_shared 19 6 23 = Ok 2 /\
  dh_shared 8 15 23 = Ok 2.
Proof.
  rewrite main_run. cbn [fst snd client server DHClient.a DHClient.A
                         DHClient.shared DHServer.b DHServer.B DHServer.shared].
  repeat split.
Qed.




(** C4. A [ServerHello] whose parameters differ from the client's makes
    [on_server_hello] raise on its first statement, the assertion; the
    client object is left as it was, so a client in its initial state has
    no private exponent, public value or shared secret afterwards. *)
Theorem group_mismatch (c : DHClient.t) (sh : ServerHello.t) :
  ServerHello.params sh <> DHClient.params c ->
  DHClient.on_server_hello sh c = (Raise AssertionError, c) /\
  (forall params,
      c = DHClient.init params ->
      let c' := snd (DHClient.on_server_hello sh c) in
      DHClient.a c' = None /\ DHClient.A c' = None /\
      DHClient.shared c' = None).
Proof.
  intros Hne. pose proof (on_server_hello_mismatch c sh Hne) as Hrun.
  split; [ exact Hrun | ].
  intros params -> c'. subst c'. rewrite Hrun. cbn. auto.
Qed.

Lemma group_mismatch_witness :
  DHClient.on_server_hello (ServerHello.mk "DH_23_5" (DHParams.mk 29 2))
      (DHClient.init DH_PARAMS)
    = (Raise AssertionError, DHClient.init DH_PARAMS).
Proof.
  apply (group_mismatch (DHClient.init DH_PARAMS)
           (ServerHello.mk "DH_23_5" (DHParams.mk 29 2))).
  cbn. discriminate.
Defined.

(** C5. For a non-negative base and exponent and a modulus above zero
    (two included), [dh_public] and [dh_shared] return, without raising,
    the power reduced modulo the modulus, a value from zero up to the
    modulus excluded.  Both are functions of their three arguments alone. *)
Theorem modpow_correct (base e m : Z) :
  0 <= base -> 0 <= e -> 0 < m ->
  dh_public base e m = Ok (base ^ e mod m) /\
  dh_shared base e m = Ok (base ^ e mod m) /\
  0 <= base ^ e mod m < m.
Proof.
  intros _ He Hm. unfold dh_public, dh_shared.
  rewrite PyIntFacts.pow_spec by lia.
  repeat split; apply Z.mod_pos_bound; assumption.
Qed.

Lemma modpow_correct_witness :
  dh_public 3 5 2 = Ok (3 ^ 5 mod 2) /\
  dh_shared 3 5 2 = Ok (3 ^ 5 mod 2) /\
  0 <= 3 ^ 5 mod 2 < 2.
Proof. apply (modpow_correct 3 5 2); lia. Defined.

(** C6, as stated, fails: a negative base, a negative modulus and a
    negative exponent are each accepted, and a value is returned. *)
Lemma modpow_accepts_negatives :
  dh_public (-2) 3 7 = Ok 6 /\
  dh_public 2 3 (-5) = Ok (-2) /\
  dh_public 3 (-1) 7 = Ok 5.
Proof. repeat split. Qed.

(** C6, amended.  The modular power raises for every base and exponent
    when the modulus is zero.  With a non-zero modulus and a non-negative
    exponent it does not raise, whatever the signs of the base and of the
    modulus: it returns the floored residue of the power, which has the
    sign of the modulus.  With a negative exponent (and a modulus other
    than one and minus one) it raises exactly when the base has no inverse
    modulo the modulus, and otherwise returns an inverse of the power. *)
Theorem modpow_domain (base e m : Z) :
  (m = 0 -> dh_public base e m = Raise ValueError) /\
  (m <> 0 -> 0 <= e -> dh_public base e m = Ok (base ^ e mod m)) /\
  (m <> 0 -> Z.abs m <> 1 -> e < 0 ->
   (Z.gcd base m <> 1 /\ dh_public base e m = Raise ValueError) \/
   (Z.gcd base m = 1 /\
    exists r, dh_public base e m = Ok r /\
              (r * base ^ (- e)) mod m = 1 mod m)).
Proof.
  unfold dh_public. repeat split.
  - intros ->. reflexivity.
  - apply PyIntFacts.pow_spec.
  - apply PyIntFacts.pow_negative_exponent.
Qed.

Lemma modpow_domain_witness :
  dh_public 5 6 0 = Raise ValueError /\
  dh_public (-5) 6 (-23) = Ok ((-5) ^ 6 mod (-23)) /\
  ((Z.gcd 5 23 <> 1 /\ dh_public 5 (-6) 23 = Raise ValueError) \/
   (Z.gcd 5 23 = 1 /\
    exists r, dh_public 5 (-6) 23 = Ok r /\
              (r * 5 ^ (- -6)) mod 23 = 1 mod 23)).
Proof.
  split; [ | split ].
  - apply (modpow_domain 5 6 0). reflexivity.
  - apply (modpow_domain (-5) 6 (-23)); lia.
  - apply (modpow_domain 5 (-6) 23); lia.
Defined.




(** C8. Two complete runs over the same parameters give the same public
    values and the same shared secret: the outcome and every field of the
    two roles after the run are determined by the parameters alone, not by
    what the role objects held before. *)
Theorem run_deterministic (params : DHParams.t) (w1 w2 w1' : roles)
    (out : outcome) :
  DHClient.params (client w1) = params ->
  DHServer.params (server w1) = params ->
  DHClient.params (client w2) = params ->
  DHServer.params (server w2) = params ->
  run w1 = (Ok out, w1') ->
  exists w2',
    run w2 = (Ok out, w2') /\
    DHClient.A (client w2') = DHClient.A (client w1') /\
    DHServer.B (server w2') = DHServer.B (server w1') /\
    DHClient.shared (client w2') = DHClient.shared (client w1') /\
    DHServer.shared (server w2') = DHServer.shared (server w1').
Proof.
  intros Hc1 Hs1 Hc2 Hs2 Hrun. subst params.
  run_cases_on w1; try discriminate.
  injection Hrun as <- <-.
  destruct (run_spec w2 (DHClient.params (client w1)))
    as (pubA' & pubB' & k' & HA' & HB' & Hk2 & _ & Hrun2);
    try assumption.
  assert (EA : pubA' = pubA) by (rewrite HA, HA'; reflexivity).
  assert (EB : pubB' = pubB) by (rewrite HB, HB'; reflexivity).
  assert (Ek : k' = k) by (rewrite Hk, Hk2, EB; reflexivity).
  rewrite EA, EB, Ek in Hrun2.
  eexists. split; [ exact Hrun2 | ]. repeat split.
Qed.

Lemma run_deterministic_witness :
  exists w2',
    run (mkRoles (DHClient.mk DH_PARAMS (Some 1) None (Some 7))
                 (DHServer.init DH_PARAMS))
      = (Ok (mkOutcome (Some 2) (Some 2) true true true), w2') /\
    DHClient.A (client w2') = Some 8 /\
    DHServer.B (server w2') = Some 19 /\
    DHClient.shared (client w2') = Some 2 /\
    DHServer.shared (server w2') = Some 2.
Proof.
  apply (run_deterministic DH_PARAMS
           (mkRoles (DHClient.init DH_PARAMS) (DHServer.init DH_PARAMS))
           (mkRoles (DHClient.mk DH_PARAMS (Some 1) None (Some 7))
                    (DHServer.init DH_PARAMS))
           (mkRoles (DHClient.mk DH_PARAMS (Some 6) (Some 8) (Some 2))
                    (DHServer.mk DH_PARAMS (Some 15) (Some 19) (Some 2))));
    try exact main_run; reflexivity.
Defined.

(** ** The parameters are left alone *)

(** Splits a method body along every test it makes. *)
Ltac method_cases :=
  method_steps;
  repeat (match goal with
          | |- context [match ?x with _ => _ end] =>
              lazymatch x with
              | context [match _ with _ => _ end] => fail
              | _ => destruct x
              end
          end; method_steps);
  try reflexivity.

Lemma client_start_params (c : DHClient.t) :
  DHClient.params (snd (DHClient.start c)) = DHClient.params c.
Proof. reflexivity. Qed.

Lemma on_server_hello_params (sh : ServerHello.t) (c : DHClient.t) :
  DHClient.params (snd (DHClient.on_server_hello sh c)) = DHClient.params c.
Proof. destruct c. method_cases. Qed.

Lemma on_server_keyshare_params (sk : ServerKeyShare.t) (c : DHClient.t) :
  DHClient.params (snd (DHClient.on_server_keyshare sk c)) = DHClient.params c.
Proof. destruct c. method_cases. Qed.

Lemma on_client_hello_params (ch : ClientHello.t) (s : DHServer.t) :
  DHServer.params (snd (DHServer.on_client_hello ch s)) = DHServer.params s.
Proof. reflexivity. Qed.

Lemma on_client_keyshare_params (ck : ClientKeyShare.t) (s : DHServer.t) :
  DHServer.params (snd (DHServer.on_client_keyshare ck s)) = DHServer.params s.
Proof. destruct s. method_cases. Qed.

Create HintDb frame.

Lemma keeps_params_ret {A : Type} (x : A) : keeps_params (ret x).
Proof. intros w. split; reflexivity. Qed.

Lemma keeps_params_get : keeps_params get.
Proof. intros w. split; reflexivity. Qed.

Lemma keeps_params_print (fields : list (option Z)) :
  keeps_params (print fields).
Proof.
  intros w. unfold print.
  destruct (forallb PyInt.str_ok_opt fields); split; reflexivity.
Qed.

Lemma keeps_params_bind {A B : Type} (m : method roles A)
    (k : A -> method roles B) :
  keeps_params m -> (forall x, keeps_params (k x)) -> keeps_params (bind m k).
Proof.
  intros Hm Hk w. unfold bind. specialize (Hm w).
  destruct (m w) as [[x | e] w']; cbn [snd] in *.
  - destruct (Hk x w') as [Hc Hs], Hm as [Hc' Hs']. split; congruence.
  - exact Hm.
Qed.

Lemma keeps_params_on_client {A : Type} (m : method DHClient.t A) :
  (forall c, DHClient.params (snd (m c)) = DHClient.params c) ->
  keeps_params (on_client m).
Proof.
  intros Hm w. unfold on_client. specialize (Hm (client w)).
  destruct (m (client w)) as [r c']. cbn in *. auto.
Qed.

Lemma keeps_params_on_server {A : Type} (m : method DHServer.t A) :
  (forall s, DHServer.params (snd (m s)) = DHServer.params s) ->
  keeps_params (on_server m).
Proof.
  intros Hm w. unfold on_server. specialize (Hm (server w)).
  destruct (m (server w)) as [r s']. cbn in *. auto.
Qed.

#[local] Hint Resolve keeps_params_ret keeps_params_get keeps_params_bind
  keeps_params_print
  keeps_params_on_client keeps_params_on_server
  client_start_params on_server_hello_params on_server_keyshare_params
  on_client_hello_params on_client_keyshare_params : frame.

Lemma run_keeps_params : keeps_params run.
Proof. unfold run. auto 20 with frame. Qed.

Lemma perform_keeps_params (w : roles) (o : operation) :
  DHClient.params (client (perform w o)) = DHClient.params (client w) /\
  DHServer.params (server (perform w o)) = DHServer.params (server w).
Proof.
  destruct o; cbn [perform].
  - apply (keeps_params_on_client DHClient.start); auto with frame.
  - apply (keeps_params_on_server (DHServer.on_client_hello ch));
      auto with frame.
  - apply (keeps_params_on_client (DHClient.on_server_hello sh));
      auto with frame.
  - apply (keeps_params_on_server (DHServer.on_client_keyshare ck));
      auto with frame.
  - apply (keeps_params_on_client (DHClient.on_server_keyshare sk));
      auto with frame.
Qed.

(** C9. No step of the handshake changes the parameters held by the
    client or by the server: after any sequence of the five operations, in
    any order, with any messages, whether the calls return or raise, both
    roles hold the parameters they held at the start; in particular after
    the run of [main], and after construction they are the constructor's
    argument. *)
Theorem params_never_mutated :
  (forall (ops : list operation) (w : roles),
      DHClient.params (client (fold_left perform ops w))
        = DHClient.params (client w) /\
      DHServer.params (server (fold_left perform ops w))
        = DHServer.params (server w)) /\
  (forall w : roles,
      DHClient.params (client (snd (run w))) = DHClient.params (client w) /\
      DHServer.params (server (snd (run w))) = DHServer.params (server w)) /\
  (forall params : DHParams.t,
      DHClient.params (DHClient.init params) = params /\
      DHServer.params (DHServer.init params) = params).
Proof.
  split; [ | split ].
  - induction ops as [ | o ops IH ]; intros w; cbn [fold_left].
    + split; reflexivity.
    + destruct (IH (perform w o)) as [Hc Hs].
      destruct (perform_keeps_params w o) as [Hc' Hs'].
      split; congruence.
  - exact run_keeps_params.
  - intros params. split; reflexivity.
Qed.

(** C10. Whatever group a [ClientHello] requests, [on_client_hello]
    answers with the group name ["DH_23_5"] and the server's own
    parameters, and leaves the server object as it was: a server in its
    initial state still has no private exponent, public value or shared
    secret. *)
Theorem server_hello_fixed (s : DHServer.t) (ch : ClientHello.t) :
  DHServer.on_client_hello ch s
    = (Ok (ServerHello.mk "DH_23_5" (DHServer.params s)), s) /\
  (forall params,
      let s' := snd (DHServer.on_client_hello ch (DHServer.init params)) in
      DHServer.params s' = params /\
      DHServer.b s' = None /\ DHServer.B s' = None /\
      DHServer.shared s' = None).
Proof.
  split; [ apply on_client_hello_run | ].
  intros params s'. subst s'. cbn. auto.
Qed.

(** ** How a run fails *)

(** X1. When the two roles were built on different parameters the run
    stops at the client's assertion: it raises [AssertionError] and leaves
    both role objects exactly as they were, so two roles fresh from their
    constructors still hold no exponent, public value or secret. *)
Theorem run_aborts_on_mismatch (cp sp : DHParams.t) :
  sp <> cp ->
  let w := mkRoles (DHClient.init cp) (DHServer.init sp) in
  run w = (Raise AssertionError, w) /\
  DHClient.a (client (snd (run w))) = None /\
  DHClient.A (client (snd (run w))) = None /\
  DHClient.shared (client (snd (run w))) = None /\
  DHServer.b (server (snd (run w))) = None /\
  DHServer.B (server (snd (run w))) = None /\
  DHServer.shared (server (snd (run w))) = None.
Proof.
  intros Hne w.
  assert (Hrun : run w = (Raise AssertionError, w))
    by (apply run_mismatch; exact Hne).
  rewrite Hrun. cbn. repeat split.
Qed.

Lemma run_aborts_on_mismatch_witness :
  run (mkRoles (DHClient.init DH_PARAMS) (DHServer.init (DHParams.mk 23 7)))
    = (Raise AssertionError,
       mkRoles (DHClient.init DH_PARAMS) (DHServer.init (DHParams.mk 23 7))).
Proof.
  apply (run_aborts_on_mismatch DH_PARAMS (DHParams.mk 23 7)). discriminate.
Defined.

(** X2. Over a zero modulus, with a generator of at most 4300 digits,
    the run stops in the client's key generation with the [ValueError] of
    [pow].  The private exponent was assigned before the call, so the
    client keeps [a = 6] with no public value, the server is untouched,
    and a later [on_server_keyshare] on that client passes its assertion
    and fails in [pow] again, storing nothing. *)
Theorem run_zero_modulus_leaves_exponent (g : Z) (sk : ServerKeyShare.t) :
  PyInt.str_ok g = true ->
  let params := DHParams.mk 0 g in
  let w := mkRoles (DHClient.init params) (DHServer.init params) in
  run w =
    (Raise ValueError,
     mkRoles (DHClient.mk params (Some 6) None None) (DHServer.init params)) /\
  DHClient.on_server_keyshare sk (client (snd (run w))) =
    (Raise ValueError, DHClient.mk params (Some 6) None None).
Proof.
  intros Hokg params w.
  assert (Hrun : run w =
            (Raise ValueError,
             mkRoles (DHClient.set_a (Some 6) (client w)) (server w)))
    by (apply run_zero; [ reflexivity | exact Hokg | reflexivity ]).
  rewrite Hrun. split; [ reflexivity | ].
  apply (on_server_keyshare_raises _ sk 6); reflexivity.
Qed.

Lemma run_zero_modulus_leaves_exponent_witness :
  run (mkRoles (DHClient.init (DHParams.mk 0 5))
               (DHServer.init (DHParams.mk 0 5)))
    = (Raise ValueError,
       mkRoles (DHClient.mk (DHParams.mk 0 5) (Some 6) None None)
               (DHServer.init (DHParams.mk 0 5))).
Proof.
  apply (run_zero_modulus_leaves_exponent 5 (ServerKeyShare.mk 19)).
  str_small.
Defined.

(** X3. A run that returns at all returns agreement: for any two role
    objects, whatever their parameters and earlier contents, if the run
    completes then both sides store the same secret, the comparison is true
    and both [Finished] flags are true; and it completes exactly when the
    two roles hold the same parameters, with a non-zero modulus, and the
    modulus and the generator have at most 4300 digits. *)
Theorem run_completes_only_in_agreement (w : roles) :
  (forall out w',
      run w = (Ok out, w') ->
      (exists k,
          client_shared out = Some k /\ server_shared out = Some k /\
          DHClient.shared (client w') = Some k /\
          DHServer.shared (server w') = Some k) /\
      equal out = true /\ fin_cli out = true /\ fin_srv out = true) /\
  ((exists out w', run w = (Ok out, w')) <->
   DHServer.params (server w) = DHClient.params (client w) /\
   DHParams.p (DHClient.params (client w)) <> 0 /\
   PyInt.str_ok (DHParams.p (DHClient.params (client w))) = true /\
   PyInt.str_ok (DHParams.g (DHClient.params (client w))) = true).
Proof.
  run_cases_on w.
  - split; [ intros out w' [=] | ].
    split; [ intros (out & w' & [=]) | intros [He _]; contradiction ].
  - split; [ intros out w' [=] | ].
    split; [ intros (out & w' & [=]) | intros (_ & _ & Hokp & Hokg) ].
    rewrite Hokp, Hokg in Hnok. discriminate.
  - split; [ intros out w' [=] | ].
    split; [ intros (out & w' & [=]) | intros (_ & Hnz & _); contradiction ].
  - split.
    + intros out w' [= <- <-]. cbn. split; [ exists k | ]; repeat split.
    + split; [ auto | intros _; do 2 eexists; reflexivity ].
Qed.

Lemma run_completes_only_in_agreement_witness :
  (exists k,
      client_shared (mkOutcome (Some 2) (Some 2) true true true) = Some k /\
      server_shared (mkOutcome (Some 2) (Some 2) true true true) = Some k /\
      DHClient.shared (client (snd main)) = Some k /\
      DHServer.shared (server (snd main)) = Some k) /\
  equal (mkOutcome (Some 2) (Some 2) true true true) = true /\
  fin_cli (mkOutcome (Some 2) (Some 2) true true true) = true /\
  fin_srv (mkOutcome (Some 2) (Some 2) true true true) = true.
Proof.
  apply (proj1 (run_completes_only_in_agreement
                  (mkRoles (DHClient.init DH_PARAMS) (DHServer.init DH_PARAMS)))).
  exact main_run_snd.
Defined.

(** ** What the secret is *)

(** X4. The secret derived from a public value is the generator raised to
    the product of the two exponents, as the comment of [dh_shared] says:
    for non-negative exponents and a non-zero modulus,
    [dh_shared(dh_public(g, a, p), b, p) = dh_public(g, a*b, p)].  Hence a
    complete run stores [g^90 mod p] on both sides. *)
Theorem shared_secret_is_power :
  (forall g a b p : Z,
      0 <= a -> 0 <= b -> p <> 0 ->
      exists pub,
        dh_public g a p = Ok pub /\
        dh_shared pub b p = dh_public g (a * b) p) /\
  (forall w out w',
      run w = (Ok out, w') ->
      let p := DHParams.p (DHClient.params (client w)) in
      let g := DHParams.g (DHClient.params (client w)) in
      exists k,
        dh_public g (6 * 15) p = Ok k /\
        client_shared out = Some k /\ server_shared out = Some k).
Proof.
  split.
  - intros g a b p Ha Hb Hp. exists (g ^ a mod p).
    unfold dh_public, dh_shared.
    rewrite !PyIntFacts.pow_spec by lia.
    rewrite Z.mod_pow_l, <- Z.pow_mul_r by assumption.
    split; reflexivity.
  - intros w out w' Hrun p g.
    run_cases_on w; try discriminate.
    injection Hrun as <- _. exists k. cbn [client_shared server_shared].
    unfold dh_public. rewrite PyIntFacts.pow_spec by (assumption || lia).
    repeat split. f_equal.
    rewrite Hk', HA, Z.mod_pow_l, <- Z.pow_mul_r by lia.
    reflexivity.
Qed.

Lemma shared_secret_is_power_witness :
  (exists pub,
      dh_public 5 6 23 = Ok pub /\
      dh_shared pub 15 23 = dh_public 5 (6 * 15) 23) /\
  (exists k,
      dh_public 5 (6 * 15) 23 = Ok k /\
      client_shared (mkOutcome (Some 2) (Some 2) true true true) = Some k /\
      server_shared (mkOutcome (Some 2) (Some 2) true true true) = Some k).
Proof.
  destruct shared_secret_is_power as [Hpow Hrun]. split.
  - apply Hpow; lia.
  - apply (Hrun (mkRoles (DHClient.init DH_PARAMS) (DHServer.init DH_PARAMS))
             _ (snd main)).
    exact main_run_snd.
Defined.

(** X5. Everything a complete run stores is a residue of the modulus: the
    two public values and the shared secret lie in [[0, p)] when the
    modulus is positive, and in [(p, 0]] when it is negative. *)
Theorem run_values_are_residues (w w' : roles) (out : outcome) :
  run w = (Ok out, w') ->
  let p := DHParams.p (DHClient.params (client w)) in
  let residue v := (0 < p -> 0 <= v < p) /\ (p < 0 -> p < v <= 0) in
  exists pubA pubB k,
    DHClient.A (client w') = Some pubA /\
    DHServer.B (server w') = Some pubB /\
    DHClient.shared (client w') = Some k /\
    DHServer.shared (server w') = Some k /\
    residue pubA /\ residue pubB /\ residue k.
Proof.
  intros Hrun p residue.
  assert (Hres : forall x, residue (x mod p)).
  { intros x. split; intros Hp.
    - apply Z.mod_pos_bound; assumption.
    - apply Z.mod_neg_bound; assumption. }
  run_cases_on w; try discriminate.
  injection Hrun as _ <-. fold p in HA, HB, Hk.
  exists pubA, pubB, k.
  cbn [client server DHClient.A DHServer.B DHClient.shared DHServer.shared].
  repeat (split; [ reflexivity | ]).
  rewrite HA, HB, Hk.
  split; [ apply Hres | split; apply Hres ].
Qed.

Lemma run_values_are_residues_witness :
  exists pubA pubB k,
    DHClient.A (client (snd main)) = Some pubA /\
    DHServer.B (server (snd main)) = Some pubB /\
    DHClient.shared (client (snd main)) = Some k /\
    DHServer.shared (server (snd main)) = Some k /\
    ((0 < 23 -> 0 <= pubA < 23) /\ (23 < 0 -> 23 < pubA <= 0)) /\
    ((0 < 23 -> 0 <= pubB < 23) /\ (23 < 0 -> 23 < pubB <= 0)) /\
    ((0 < 23 -> 0 <= k < 23) /\ (23 < 0 -> 23 < k <= 0)).
Proof.
  apply (run_values_are_residues
           (mkRoles (DHClient.init DH_PARAMS) (DHServer.init DH_PARAMS))
           (snd main) (mkOutcome (Some 2) (Some 2) true true true)).
  exact main_run_snd.
Defined.

(** ** The peer's key share *)

Lemma str_ok_1 : PyInt.str_ok 1 = true.
Proof. str_small. Qed.

(** X6. A key share enters the secret only through its residue: two
    values with the same residue give the same result of [dh_shared], for
    every exponent and modulus, and leave the same secret on the client,
    on every path.  The narration formats the key share itself, so the
    whole outcome of [on_server_keyshare] and of [on_client_keyshare] is
    the same when, besides, both values can be printed or neither can. *)
Theorem key_share_taken_modulo :
  (forall pub1 pub2 e p : Z,
      pub1 mod p = pub2 mod p -> dh_shared pub1 e p = dh_shared pub2 e p) /\
  (forall c sk1 sk2,
      ServerKeyShare.B sk1 mod DHParams.p (DHClient.params c)
        = ServerKeyShare.B sk2 mod DHParams.p (DHClient.params c) ->
      snd (DHClient.on_server_keyshare sk1 c)
        = snd (DHClient.on_server_keyshare sk2 c) /\
      (PyInt.str_ok (ServerKeyShare.B sk1)
         = PyInt.str_ok (ServerKeyShare.B sk2) ->
       DHClient.on_server_keyshare sk1 c
         = DHClient.on_server_keyshare sk2 c)) /\
  (forall s ck1 ck2,
      ClientKeyShare.A ck1 mod DHParams.p (DHServer.params s)
        = ClientKeyShare.A ck2 mod DHParams.p (DHServer.params s) ->
      PyInt.str_ok (ClientKeyShare.A ck1)
        = PyInt.str_ok (ClientKeyShare.A ck2) ->
      DHServer.on_client_keyshare ck1 s = DHServer.on_client_keyshare ck2 s).
Proof.
  split; [ | split ].
  - intros pub1 pub2 e p H. apply PyIntFacts.pow_base_congr. exact H.
  - intros c sk1 sk2 H.
    destruct (DHClient.a c) as [a_ | ] eqn:Ea.
    + pose proof (PyIntFacts.pow_base_congr _ _ a_ _ H) as Hpow.
      fold (dh_shared (ServerKeyShare.B sk1) a_
              (DHParams.p (DHClient.params c))) in Hpow.
      fold (dh_shared (ServerKeyShare.B sk2) a_
              (DHParams.p (DHClient.params c))) in Hpow.
      destruct (dh_shared (ServerKeyShare.B sk2) a_
                  (DHParams.p (DHClient.params c))) as [k | e] eqn:E2.
      * rewrite (on_server_keyshare_stores c sk1 a_ k) by assumption.
        rewrite (on_server_keyshare_stores c sk2 a_ k) by assumption.
        split; [ reflexivity | intros ->; reflexivity ].
      * rewrite (on_server_keyshare_raises c sk1 a_ e) by assumption.
        rewrite (on_server_keyshare_raises c sk2 a_ e) by assumption.
        split; [ reflexivity | intros _; reflexivity ].
    + rewrite !on_server_keyshare_unset by assumption.
      split; [ reflexivity | intros _; reflexivity ].
  - intros s ck1 ck2 H Hok.
    destruct (PyInt.str_ok (ClientKeyShare.A ck2)) eqn:Hok2.
    + destruct (Z.eq_dec (DHParams.p (DHServer.params s)) 0) as [Hz | Hnz].
      * rewrite !on_client_keyshare_zero_modulus by assumption. reflexivity.
      * rewrite !on_client_keyshare_stores by assumption. cbv zeta.
        rewrite <- (Z.mod_pow_l (ClientKeyShare.A ck1)), H, Z.mod_pow_l.
        reflexivity.
    + rewrite !on_client_keyshare_unprintable by assumption. reflexivity.
Qed.

Lemma key_share_taken_modulo_witness :
  dh_shared 19 6 23 = dh_shared (19 - 2 * 23) 6 23 /\
  DHClient.on_server_keyshare (ServerKeyShare.mk 19)
      (DHClient.mk DH_PARAMS (Some 6) (Some 8) None)
    = DHClient.on_server_keyshare (ServerKeyShare.mk (19 + 23))
        (DHClient.mk DH_PARAMS (Some 6) (Some 8) None) /\
  DHServer.on_client_keyshare (ClientKeyShare.mk 8) (DHServer.init DH_PARAMS)
    = DHServer.on_client_keyshare (ClientKeyShare.mk (8 - 23))
        (DHServer.init DH_PARAMS).
Proof.
  destruct key_share_taken_modulo as (Hpow & Hc & Hs).
  split; [ | split ].
  - apply Hpow. reflexivity.
  - apply Hc; [ reflexivity | ].
    cbn [ServerKeyShare.B].
    transitivity true; [ | symmetry ]; str_small.
  - apply Hs; [ reflexivity | ].
    cbn [ClientKeyShare.A].
    transitivity true; [ | symmetry ]; str_small.
Defined.

(** X7. No key share is checked against the group, so a degenerate one
    fixes the secret.  Over a modulus above one, a client that holds its
    exponent stores the secret 0 for a key share congruent to 0, and 1 for
    one congruent to 1 or to [p - 1] (its exponent 6 is even), and answers
    [Finished(ok=True)] when the key share has at most 4300 digits; the
    server (its exponent 15 is odd), when its modulus and the key share
    have at most 4300 digits, stores for each of the three the residue of
    the key share itself and answers [Finished(ok=True)]. *)
Theorem degenerate_key_shares :
  (forall c sk,
      DHClient.a c = Some 6 ->
      let p := DHParams.p (DHClient.params c) in
      let v := ServerKeyShare.B sk mod p in
      1 < p -> v = 0 \/ v = 1 \/ v = p - 1 ->
      exists k,
        snd (DHClient.on_server_keyshare sk c)
          = DHClient.set_shared (Some k) c /\
        (v = 0 -> k = 0) /\ (v = 1 \/ v = p - 1 -> k = 1) /\
        (PyInt.str_ok (ServerKeyShare.B sk) = true ->
         fst (DHClient.on_server_keyshare sk c) = Ok (Finished.mk true))) /\
  (forall s ck,
      let p := DHParams.p (DHServer.params s) in
      let v := ClientKeyShare.A ck mod p in
      1 < p -> v = 0 \/ v = 1 \/ v = p - 1 ->
      PyInt.str_ok p = true -> PyInt.str_ok (ClientKeyShare.A ck) = true ->
      exists pub s',
        DHServer.on_client_keyshare ck s
          = (Ok (ServerKeyShare.mk pub, Finished.mk true), s') /\
        DHServer.shared s' = Some v).
Proof.
  split.
  - intros c sk Ha p v Hp Hv.
    exists (ServerKeyShare.B sk ^ 6 mod p).
    rewrite (on_server_keyshare_stores c sk 6 (ServerKeyShare.B sk ^ 6 mod p))
      by (assumption || (apply dh_shared_spec; fold p; lia)).
    cbn [fst snd].
    assert (Hk : (v = 0 -> ServerKeyShare.B sk ^ 6 mod p = 0) /\
                 (v = 1 \/ v = p - 1 -> ServerKeyShare.B sk ^ 6 mod p = 1)).
    { rewrite <- Z.mod_pow_l. fold v. split.
      - intros ->. reflexivity.
      - intros [-> | Hm].
        + apply Z.mod_1_l. exact Hp.
        + rewrite Hm, <- (mod_minus_one p Hp), Z.mod_pow_l.
          apply Z.mod_1_l. exact Hp. }
    destruct Hk as [Hk0 Hk1].
    split; [ reflexivity | ]. split; [ exact Hk0 | ]. split; [ exact Hk1 | ].
    intros ->.
    destruct Hv as [H0 | H1].
    + rewrite (Hk0 H0), PyIntFacts.str_ok_0. reflexivity.
    + rewrite (Hk1 H1), str_ok_1. reflexivity.
  - intros s ck p v Hp Hv Hokp HokA. do 2 eexists. split.
    + apply on_client_keyshare_run; fold p; [ assumption | assumption | lia ].
    + cbn [DHServer.shared]. f_equal. fold p.
      rewrite <- Z.mod_pow_l. fold v.
      destruct Hv as [-> | [-> | Hm]].
      * reflexivity.
      * apply Z.mod_1_l. exact Hp.
      * rewrite Hm at 1. rewrite <- (mod_minus_one p Hp), Z.mod_pow_l.
        change ((-1) ^ 15) with (-1). rewrite mod_minus_one by exact Hp.
        symmetry. exact Hm.
Qed.

Lemma degenerate_key_shares_witness :
  (exists k,
      snd (DHClient.on_server_keyshare (ServerKeyShare.mk 22)
             (DHClient.mk DH_PARAMS (Some 6) (Some 8) None))
        = DHClient.set_shared (Some k)
            (DHClient.mk DH_PARAMS (Some 6) (Some 8) None) /\
      (22 mod 23 = 0 -> k = 0) /\
      (22 mod 23 = 1 \/ 22 mod 23 = 23 - 1 -> k = 1) /\
      (PyInt.str_ok 22 = true ->
       fst (DHClient.on_server_keyshare (ServerKeyShare.mk 22)
              (DHClient.mk DH_PARAMS (Some 6) (Some 8) None))
         = Ok (Finished.mk true))) /\
  (exists pub s',
      DHServer.on_client_keyshare (ClientKeyShare.mk 22)
          (DHServer.init DH_PARAMS)
        = (Ok (ServerKeyShare.mk pub, Finished.mk true), s') /\
      DHServer.shared s' = Some (22 mod 23)).
Proof.
  destruct degenerate_key_shares as [Hc Hs]. split.
  - apply (Hc (DHClient.mk DH_PARAMS (Some 6) (Some 8) None)
              (ServerKeyShare.mk 22)).
    + reflexivity.
    + reflexivity.
    + right; right. reflexivity.
  - apply (Hs (DHServer.init DH_PARAMS) (ClientKeyShare.mk 22)).
    + reflexivity.
    + right; right. reflexivity.
    + str_small.
    + str_small.
Defined.

(** ** What the methods leave alone and what they raise *)

(** X8. Each method writes only its own fields.  [start] and
    [on_client_hello] write none; [on_server_hello] never touches the
    stored secret, so the secret of an earlier exchange stays on a client
    that generates a new key share; [on_server_keyshare] never touches the
    exponent or the public value.  This holds on raising paths too. *)
Theorem fields_left_alone :
  (forall c, snd (DHClient.start c) = c) /\
  (forall ch s, snd (DHServer.on_client_hello ch s) = s) /\
  (forall sh c,
      DHClient.shared (snd (DHClient.on_server_hello sh c))
        = DHClient.shared c) /\
  (forall sk c,
      DHClient.a (snd (DHClient.on_server_keyshare sk c)) = DHClient.a c /\
      DHClient.A (snd (DHClient.on_server_keyshare sk c)) = DHClient.A c).
Proof.
  repeat split.
  - destruct c. method_cases.
  - destruct c. method_cases.
  - destruct c. method_cases.
Qed.



(** ** The states the roles go through *)

Lemma perform_client (w : roles) (o : operation) :
  client (perform w o) =
    match o with
    | OnServerHello sh => snd (DHClient.on_server_hello sh (client w))
    | OnServerKeyShare sk => snd (DHClient.on_server_keyshare sk (client w))
    | _ => client w
    end.
Proof.
  destruct o; cbn [perform]; unfold on_client, on_server;
    try reflexivity;
    match goal with
    | |- context [let (_, _) := ?m in _] => destruct m
    end; reflexivity.
Qed.

Lemma perform_server (w : roles) (o : operation) :
  server (perform w o) =
    match o with
    | OnClientKeyShare ck => snd (DHServer.on_client_keyshare ck (server w))
    | _ => server w
    end.
Proof.
  destruct o; cbn [perform]; unfold on_client, on_server;
    try reflexivity;
    match goal with
    | |- context [let (_, _) := ?m in _] => destruct m
    end; reflexivity.
Qed.

(** Reads the fields of an explicit role object. *)
Ltac fields :=
  cbn [fst snd
       DHClient.params DHClient.a DHClient.A DHClient.shared
       DHClient.set_a DHClient.set_A DHClient.set_shared DHClient.init
       DHServer.params DHServer.b DHServer.B DHServer.shared
       DHServer.set_b DHServer.set_B DHServer.set_shared DHServer.init] in *.

Lemma on_server_hello_invariant (params : DHParams.t) (sh : ServerHello.t)
    (c : DHClient.t) :
  client_invariant params c ->
  client_invariant params (snd (DHClient.on_server_hello sh c)).
Proof.
  intros [Hpar Hst]. unfold client_invariant in *. cbv zeta in *.
  destruct (DHParams.eqb (ServerHello.params sh) (DHClient.params c)) eqn:E.
  - apply DHParams_eqb_eq in E.
    destruct (PyInt.str_ok (DHParams.p (DHClient.params c))
              && PyInt.str_ok (DHParams.g (DHClient.params c))) eqn:Hok.
    + apply andb_true_iff in Hok as [Hokp Hokg].
      destruct (Z.eq_dec (DHParams.p (DHClient.params c)) 0) as [Hz | Hnz].
      * rewrite on_server_hello_zero_modulus by assumption.
        destruct c as [cp ca cA cs]. fields. subst cp.
        split; [ reflexivity | right ].
        repeat (split; [ assumption || reflexivity | ]). left.
        destruct Hst
          as [(_ & HA & Hs)
             | (_ & _ & _ & [(_ & HA & Hs) | (Hnz & _)])];
          [ auto | auto | contradiction ].
      * rewrite on_server_hello_match by assumption.
        destruct c as [cp ca cA cs]. fields. subst cp.
        split; [ reflexivity | right ].
        repeat (split; [ assumption || reflexivity | ]). right.
        split; [ assumption | ]. split; [ reflexivity | ].
        destruct Hst
          as [(_ & _ & Hs)
             | (_ & _ & _ & [(_ & _ & Hs) | (_ & _ & Hs)])];
          auto.
    + rewrite on_server_hello_unprintable by assumption. fields. auto.
  - apply DHParams_eqb_neq in E.
    rewrite on_server_hello_mismatch by assumption. fields. auto.
Qed.

Lemma on_server_keyshare_invariant (params : DHParams.t)
    (sk : ServerKeyShare.t) (c : DHClient.t) :
  client_invariant params c ->
  client_invariant params (snd (DHClient.on_server_keyshare sk c)).
Proof.
  intros [Hpar Hst]. unfold client_invariant in *. cbv zeta in *.
  destruct Hst
    as [(Ha & HA & Hs)
       | (Ha & Hokp & Hokg & [(Hz & HA & Hs) | (Hnz & HA & Hs)])].
  - rewrite on_server_keyshare_unset by assumption. fields. auto.
  - rewrite (on_server_keyshare_raises c sk 6 ValueError)
      by (assumption || (rewrite Hpar, Hz; reflexivity)).
    fields. split; [ assumption | right ].
    repeat (split; [ assumption | ]). left. auto.
  - rewrite (on_server_keyshare_stores c sk 6
               (ServerKeyShare.B sk ^ 6 mod DHParams.p params))
      by (assumption || (rewrite Hpar; apply dh_shared_spec; [ assumption | lia ])).
    destruct c as [cp ca cA cs]. fields. subst cp.
    split; [ reflexivity | right ].
    repeat (split; [ assumption | ]). right.
    split; [ assumption | ]. split; [ assumption | right ].
    exists (ServerKeyShare.B sk). reflexivity.
Qed.

Lemma on_client_keyshare_invariant (params : DHParams.t)
    (ck : ClientKeyShare.t) (s : DHServer.t) :
  server_invariant params s ->
  server_invariant params (snd (DHServer.on_client_keyshare ck s)).
Proof.
  intros [Hpar Hst]. unfold server_invariant in *. cbv zeta in *.
  destruct (PyInt.str_ok (ClientKeyShare.A ck)) eqn:HokA.
  - destruct (Z.eq_dec (DHParams.p (DHServer.params s)) 0) as [Hz | Hnz].
    + rewrite on_client_keyshare_zero_modulus by assumption.
      destruct s as [sp sb sB ss]. fields. subst sp.
      split; [ reflexivity | right ]. split; [ reflexivity | left ].
      destruct Hst as [(_ & HB & Hs) | (_ & [(_ & HB & Hs) | (Hnz & _)])];
        [ auto | auto | contradiction ].
    + rewrite on_client_keyshare_stores by assumption. cbv zeta.
      destruct s as [sp sb sB ss]. fields. subst sp.
      destruct (PyInt.str_ok (DHParams.g params ^ 15 mod DHParams.p params))
        eqn:HokB.
      * fields. split; [ reflexivity | right ]. split; [ reflexivity | right ].
        split; [ assumption | ]. split; [ reflexivity | right ].
        split; [ reflexivity | ]. exists (ClientKeyShare.A ck). reflexivity.
      * fields. split; [ reflexivity | right ]. split; [ reflexivity | right ].
        split; [ assumption | ]. split; [ reflexivity | left ].
        split; [ reflexivity | ].
        destruct Hst
          as [(_ & _ & Hs)
             | (_ & [(Hz & _) | (_ & _ & [(_ & Hs) | (Hok & _)])])];
          [ assumption | contradiction | assumption | congruence ].
  - rewrite on_client_keyshare_unprintable by assumption. fields. auto.
Qed.

Lemma perform_invariant (cp sp : DHParams.t) (w : roles) (o : operation) :
  client_invariant cp (client w) /\ server_invariant sp (server w) ->
  client_invariant cp (client (perform w o)) /\
  server_invariant sp (server (perform w o)).
Proof.
  intros [Hc Hs]. rewrite perform_client, perform_server.
  destruct o; split;
    auto using on_server_hello_invariant, on_server_keyshare_invariant,
      on_client_keyshare_invariant.
Qed.

(** X10. Whatever calls are made on two freshly constructed roles, in any
    order and with any messages, each role stays in one of its few states
    ([client_invariant], [server_invariant]).  So a stored exponent is
    always 6 on the client and 15 on the server; a stored public value is
    always the generator raised to that exponent modulo the modulus; no
    role holds a secret without a public value; and a server whose modulus
    has at most 4300 digits holds a public value exactly when it holds a
    secret. *)
Theorem reachable_states (cp sp : DHParams.t) (ops : list operation) :
  let w := fold_left perform ops
             (mkRoles (DHClient.init cp) (DHServer.init sp)) in
  (client_invariant cp (client w) /\ server_invariant sp (server w)) /\
  (forall x, DHClient.a (client w) = Some x -> x = 6) /\
  (forall x, DHServer.b (server w) = Some x -> x = 15) /\
  (forall x, DHClient.A (client w) = Some x ->
             dh_public (DHParams.g cp) 6 (DHParams.p cp) = Ok x) /\
  (forall x, DHServer.B (server w) = Some x ->
             dh_public (DHParams.g sp) 15 (DHParams.p sp) = Ok x) /\
  (DHClient.A (client w) = None -> DHClient.shared (client w) = None) /\
  (DHServer.B (server w) = None -> DHServer.shared (server w) = None) /\
  (PyInt.str_ok (DHParams.p sp) = true ->
   DHServer.shared (server w) = None -> DHServer.B (server w) = None).
Proof.
  intros w.
  assert (Hinv : client_invariant cp (client w) /\
                 server_invariant sp (server w)).
  { subst w.
    assert (Hgen : forall ops w0,
               client_invariant cp (client w0) /\
               server_invariant sp (server w0) ->
               client_invariant cp (client (fold_left perform ops w0)) /\
               server_invariant sp (server (fold_left perform ops w0))).
    { clear ops. induction ops as [ | o ops IH ]; intros w0 H0;
        cbn [fold_left]; [ exact H0 | ].
      apply IH, perform_invariant, H0. }
    apply Hgen. split; (split; [ reflexivity | left; fields; auto ]). }
  split; [ exact Hinv | ].
  destruct Hinv as [[_ Hc] [_ Hs]]. cbv zeta in Hc, Hs.
  repeat split.
  - intros x Hx.
    destruct Hc as [(Ha & _) | (Ha & _)]; congruence.
  - intros x Hx.
    destruct Hs as [(Hb & _) | (Hb & _)]; congruence.
  - intros x Hx.
    destruct Hc
      as [(_ & HA & _)
         | (_ & _ & _ & [(_ & HA & _) | (Hnz & HA & _)])];
      try congruence.
    rewrite dh_public_spec by (assumption || lia). congruence.
  - intros x Hx.
    destruct Hs as [(_ & HB & _) | (_ & [(_ & HB & _) | (Hnz & HB & _)])];
      try congruence.
    rewrite dh_public_spec by (assumption || lia). congruence.
  - intros HA.
    destruct Hc
      as [(_ & _ & Hsh)
         | (_ & _ & _ & [(_ & _ & Hsh) | (_ & HA' & _)])];
      congruence.
  - intros HB.
    destruct Hs as [(_ & _ & Hsh) | (_ & [(_ & _ & Hsh) | (_ & HB' & _)])];
      congruence.
  - intros Hokp Hsh.
    destruct Hs
      as [(_ & HB & _)
         | (_ & [(_ & HB & _)
                | (Hnz & _ & [(Hno & _) | (_ & pub & Hp)])])];
      try congruence.
    rewrite PyIntFacts.str_ok_mod in Hno by assumption. discriminate.
Qed.

Lemma reachable_states_witness :
  DHClient.shared
    (client (fold_left perform
               [Start; OnClientHello ClientHello.default;
                OnServerKeyShare (ServerKeyShare.mk 19)]
               (mkRoles (DHClient.init DH_PARAMS) (DHServer.init DH_PARAMS))))
    = None.
Proof.
  destruct (reachable_states DH_PARAMS DH_PARAMS
              [Start; OnClientHello ClientHello.default;
               OnServerKeyShare (ServerKeyShare.mk 19)])
    as (_ & _ & _ & _ & _ & HA & _).
  apply HA. reflexivity.
Defined.
